(** * The port workflow of the review-checklist bot (go/porting.go)

    A shallow embedding of [portPR] and [backportPR]: the two functions that,
    on a merged pull request, read its labels, and for every requested branch
    cherry-pick the merge commit and open a new pull request.

    Calls to the GitHub client, to [execCmd] and to the logger are events of
    a small free monad; a run interprets them against an arbitrary stateful
    handler and records every call with its answer. *)

From Stdlib Require Import String Ascii List ZArith Bool Lia DecimalString.
Import ListNotations.
Open Scope string_scope.
Open Scope list_scope.

(** ** Go's [strings] and [fmt] functions used by the source *)

Module GoStrings.

(** [strings.HasPrefix(s, prefix)]. *)
Definition HasPrefix (s prefix : string) : bool := String.prefix prefix s.

(** [strings.Contains(s, substr)]: some suffix of [s] starts with [substr]. *)
Fixpoint Contains (s substr : string) : bool :=
String.prefix substr s ||
match s with
| EmptyString => false
| String _ s' => Contains s' substr
end.

(** The bytes of [s], one string each ([strings.Split] with an empty
  separator; Go cuts after each UTF-8 sequence, which is a byte for
  ASCII text). *)
Fixpoint explode (s : string) : list string :=
match s with
| EmptyString => []
| String c s' => String c EmptyString :: explode s'
end.

(** The scan behind [strings.Split]: [cur] is the piece being read, [skip]
  the number of bytes of a matched separator still to pass over. The
  separators found are the leftmost ones and do not overlap, as in Go's
  [genSplit] (repeated [Index], then [s = s[m+len(sep):]]). *)
Fixpoint splitFrom (sep : string) (skip : nat) (cur s : string) : list string :=
match s with
| EmptyString => [cur]
| String c s' =>
    match skip with
    | S k => splitFrom sep k cur s'
    | O =>
        if String.prefix sep s
        then cur :: splitFrom sep (String.length sep - 1) EmptyString s'
        else splitFrom sep 0 (cur ++ String c EmptyString) s'
    end
end.

(** [strings.Split(s, sep)]. *)
Definition Split (s sep : string) : list string :=
match sep with
| EmptyString => explode s
| _ => splitFrom sep 0 EmptyString s
end.

(** [strconv.Itoa] / the verb [%d] on an [int]. *)
Definition itoa (n : Z) : string := NilZero.string_of_int (Z.to_int n).

(** An operand of [fmt.Sprintf]: the source only passes strings and ints. *)
Inductive arg : Type :=
| Str (s : string)
| Int (n : Z).

(** One operand under the verb [v]; a verb that does not fit the operand
  prints Go's [%!v(type=value)]. *)
Definition verb (v : ascii) (a : arg) : string :=
match a with
| Str s =>
    if (Ascii.eqb v "s" || Ascii.eqb v "v")%bool then s
    else "%!" ++ String v ("(string=" ++ s ++ ")")
| Int n =>
    if (Ascii.eqb v "d" || Ascii.eqb v "v")%bool then itoa n
    else "%!" ++ String v ("(int=" ++ itoa n ++ ")")
end.

Definition argText (a : arg) : string :=
match a with
| Str s => "string=" ++ s
| Int n => "int=" ++ itoa n
end.

(** What [Sprintf] appends for operands no verb consumed. *)
Definition extra (args : list arg) : string :=
match args with
| [] => EmptyString
| _ => "%!(EXTRA " ++ String.concat ", " (map argText args) ++ ")"
end.

(** [fmt.Sprintf(format, args...)] for plain verbs (no flags or widths). *)
Fixpoint Sprintf (format : string) (args : list arg) : string :=
match format with
| EmptyString => extra args
| String c rest =>
    if Ascii.eqb c "%" then
      match rest with
      | EmptyString => "%!(NOVERB)" ++ extra args
      | String v rest' =>
          if Ascii.eqb v "%" then String "%" (Sprintf rest' args)
          else
            match args with
            | [] => "%!" ++ String v ("(MISSING)" ++ Sprintf rest' [])
            | a :: args' => verb v a ++ Sprintf rest' args'
            end
      end
    else String c (Sprintf rest args)
end.

End GoStrings.
Import GoStrings.

(** ** Errors *)

(** A Go [error] is observed only through [Error()]. *)
Definition error : Type := string.

(** [errors.Wrapf(err, format, args...)] of pkg/errors, for [err != nil]:
    the new message, a colon and a space, then the cause. *)
Definition Wrapf (err : error) (format : string) (args : list arg) : error :=
  (Sprintf format args ++ ": " ++ err)%string.

(** The pair [(value, err)] a client call returns: the value is read only
    when [err == nil]. *)
Inductive result (A : Type) : Type :=
| Ok (a : A)
| Err (e : error).
Arguments Ok {A} a.
Arguments Err {A} e.

(** ** The go-github values the source reads and builds

    A Go pointer is an [option]; the [Get...] accessors of go-github answer
    the zero value on a nil receiver or a nil field. *)

Module Label.
Record t : Type := { Name : option string }.
Definition GetName (l : option t) : string :=
  match l with
  | Some {| Name := Some n |} => n
  | _ => EmptyString
  end.
End Label.

Module User.
Record t : Type := { Login : option string }.
Definition GetLogin (u : option t) : string :=
  match u with
  | Some {| Login := Some n |} => n
  | _ => EmptyString
  end.
End User.

Module Team.
Record t : Type := { Name : option string }.
Definition GetName (l : option t) : string :=
  match l with
  | Some {| Name := Some n |} => n
  | _ => EmptyString
  end.
End Team.

Record PullRequest : Type := {
  Number : option Z;
  Title : option string;
  PRUser : option User.t;
  Labels : list (option Label.t);
  MergeCommitSHA : option string
}.

Definition GetNumber (pr : PullRequest) : Z :=
  match Number pr with Some n => n | None => 0%Z end.
Definition GetTitle (pr : PullRequest) : string :=
  match Title pr with Some s => s | None => EmptyString end.
Definition GetUser (pr : PullRequest) : option User.t := PRUser pr.
Definition GetMergeCommitSHA (pr : PullRequest) : string :=
  match MergeCommitSHA pr with Some s => s | None => EmptyString end.

Record GitObject : Type := { SHA : option string }.

Record Reference : Type := {
  Ref : option string;
  Object : option GitObject
}.

Record NewPullRequest : Type := {
  NewTitle : option string;
  Head : option string;
  Base : option string;
  Body : option string;
  MaintainerCanModify : option bool;
  Draft : option bool
}.

Record IssueComment : Type := { CommentBody : option string }.

Record Reviewers : Type := {
  Users : list (option User.t);
  Teams : list (option Team.t)
}.

Record ReviewersRequest : Type := {
  RequestedReviewers : list string;
  TeamReviewers : list string
}.

(** The installation client; its methods are the events below. *)
Record Client : Type := { installation : Z }.

(** The fields of [github.PullRequestEvent] that [backportPR] reads. *)
Record PullRequestEvent : Type := { InstallationID : Z }.

Definition GetInstallationIDFromEvent (event : PullRequestEvent) : Z :=
  InstallationID event.

(** [prInformation], without the repository pointer (used for the logging
    context only). *)
Record prInformation : Type := {
  num : Z;
  repoOwner : string;
  repoName : string;
  merged : bool
}.

(** ** Constants of the source *)

Definition backportLabelPrefix : string := "Backport to: ".
Definition forwardportLabelPrefix : string := "Forwardport to: ".
Definition backport : string := "backport".
Definition forwardport : string := "forwardport".

Definition nl : string := String (ascii_of_nat 10) EmptyString.
Definition dquote : string := String (ascii_of_nat 34) EmptyString.
Definition backquote : string := String (ascii_of_nat 96) EmptyString.

(** The [--author=...] operand of both commits, with the quotes the source
    passes to git as they are. *)
Definition botAuthor : string :=
  Eval cbv in
    ("--author=" ++ dquote
     ++ "vitess-bot[bot] <108069721+vitess-bot[bot]@users.noreply.github.com>"
     ++ dquote)%string.

Definition descriptionFormat : string :=
  Eval cbv in ("## Description" ++ nl ++ "This is a %s of #%d")%string.

Definition conflictCommentFormat : string :=
  Eval cbv in
    ("Hello @%s, there are conflicts in this %s." ++ nl ++ nl
     ++ "Please addresse them in order to merge this Pull Request. You can execute the snippet below to reset your branch and resolve the conflict manually."
     ++ nl ++ nl
     ++ "Make sure you replace " ++ backquote ++ "origin" ++ backquote
     ++ " by the name of the %s/%s remote " ++ nl
     ++ backquote ++ backquote ++ backquote ++ nl
     ++ "git fetch --all" ++ nl
     ++ "gh pr checkout %d -R %s/%s" ++ nl
     ++ "git reset --hard origin/%s" ++ nl
     ++ "git cherry-pick -m 1 %s" ++ nl)%string.

(** ** Calls to the outside, and programs that make them *)

Inductive Event : Type -> Type :=
| NewInstallationClient (installationID : Z) : Event (result Client)
| PullRequests_Get (owner repo : string) (number : Z) :
    Event (result PullRequest)
| Git_GetRef (owner repo ref : string) : Event (result Reference)
| Git_CreateRef (owner repo : string) (ref : Reference) :
    Event (result Reference)
| execCmd (dir name : string) (args : list string) :
    Event (string * option error)
| PullRequests_Create (owner repo : string) (pull : NewPullRequest) :
    Event (result PullRequest)
| Issues_AddLabelsToIssue (owner repo : string) (number : Z)
    (labels : list string) : Event (result (list Label.t))
| Issues_CreateComment (owner repo : string) (number : Z)
    (comment : IssueComment) : Event (result IssueComment)
| PullRequests_ListReviewers (owner repo : string) (number : Z) :
    Event (result Reviewers)
| PullRequests_RequestReviewers (owner repo : string) (number : Z)
    (reviewers : ReviewersRequest) : Event (result PullRequest)
| Log (err : option error) (msg : string) : Event unit.

Inductive Prog (R : Type) : Type :=
| Ret (r : R)
| Vis {X : Type} (e : Event X) (k : X -> Prog R).
Arguments Ret {R} r.
Arguments Vis {R X} e k.

Fixpoint bind {A B : Type} (p : Prog A) (f : A -> Prog B) : Prog B :=
  match p with
  | Ret a => f a
  | Vis e k => Vis e (fun x => bind (k x) f)
  end.

Definition trigger {X : Type} (e : Event X) : Prog X := Vis e Ret.

(** A function body that may [return] early: [inl r] is a [return r]
    taken, [inr a] the value of the statement run so far. *)
Definition Stmt (R A : Type) : Type := Prog (R + A).

Definition ret {R A : Type} (a : A) : Stmt R A := Ret (inr a).
Definition return_ {R A : Type} (r : R) : Stmt R A := Ret (inl r).
Definition call {R X : Type} (e : Event X) : Stmt R X :=
  Vis e (fun x => Ret (inr x)).

Definition seq {R A B : Type} (p : Stmt R A) (f : A -> Stmt R B) : Stmt R B :=
  bind p (fun x => match x with inl r => Ret (inl r) | inr a => f a end).

(** [v, _, err := e; if err != nil { return onErr(err) }] *)
Definition orReturn {R A : Type} (e : Event (result A)) (onErr : error -> R)
  : Stmt R A :=
  seq (call e) (fun x =>
    match x with Err err => return_ (onErr err) | Ok v => ret v end).

(** [_, err = execCmd(...); if err != nil { return onErr(err) }] *)
Definition cmdOrReturn {R : Type} (e : Event (string * option error))
    (onErr : error -> R) : Stmt R unit :=
  seq (call e) (fun x =>
    match snd x with Some err => return_ (onErr err) | None => ret tt end).

(** A whole function: the value returned early or at the end. *)
Definition func {R : Type} (b : Stmt R R) : Prog R :=
  bind b (fun x => match x with inl r => Ret r | inr r => Ret r end).

Declare Scope body_scope.
Delimit Scope body_scope with body.
Notation "x <- p ;; q" := (seq p (fun x => q))
  (at level 61, p at next level, right associativity) : body_scope.
Open Scope body_scope.

(** ** portPR *)

(** How a call ends: with its return value, or in a panic. *)
Inductive outcome (A : Type) : Type :=
| Returned (a : A)
| Panicked.
Arguments Returned {A} a.
Arguments Panicked {A}.

(** What [portPR] returns: [(int, error)]. *)
Definition portResult : Type := (Z * option error)%type.

(** [return 0, errors.Wrapf(err, format, args...)] *)
Definition fail (err : error) (format : string) (args : list arg)
  : outcome portResult :=
  Returned (0%Z, Some (Wrapf err format args)).

(** [p.field] on a pointer: a nil [p] panics. *)
Definition deref {A B : Type} (p : option A) (field : A -> B)
  : Stmt (outcome portResult) B :=
  match p with
  | Some a => ret (field a)
  | None => return_ Panicked
  end.

Definition portPR (client : Client) (prInfo : prInformation) (pr : PullRequest)
    (mergedCommitSHA branch portType : string) (labels : list string)
  : Prog (outcome portResult) :=
  func (
  (* Get a reference to the release branch *)
  releaseRef <- orReturn
    (Git_GetRef (repoOwner prInfo) (repoName prInfo)
       (Sprintf "heads/%s" [Str branch]))
    (fun err => fail err "" []) ;;
  (* Create a new branch from the release branch *)
  let newBranch :=
    Sprintf "%s-%d-to-%s" [Str portType; Int (GetNumber pr); Str branch] in
  objectSHA <- deref (Object releaseRef) SHA ;;
  let newRef :=
    {| Ref := Some ("refs/heads/" ++ newBranch)%string;
       Object := Some {| SHA := objectSHA |} |} in
  _ <- orReturn
    (Git_CreateRef (repoOwner prInfo) (repoName prInfo) newRef)
    (fun err => fail err
       "Failed to create git ref %s on repository %s/%s to backport Pull Request %d"
       [Str newBranch; Str (repoOwner prInfo); Str (repoName prInfo);
        Int (num prInfo)]) ;;
  (* Clone the repository *)
  out <- call (execCmd "" "git"
    ["clone";
     Sprintf "git@github.com:%s/%s.git"
       [Str (repoOwner prInfo); Str (repoName prInfo)];
     "/tmp/vitess"]) ;;
  _ <- match snd out with
       | Some err =>
           if negb (Contains err "already exists and is not an empty directory")
           then return_ (fail err
             "Failed to clone repository %s/%s to backport Pull Request %d"
             [Str (repoOwner prInfo); Str (repoName prInfo); Int (num prInfo)])
           else ret tt
       | None => ret tt
       end ;;
  (* Fetch origin *)
  _ <- cmdOrReturn (execCmd "/tmp/vitess" "git" ["fetch"; "origin"])
    (fun err => fail err
       "Failed to fetch origin on repository %s/%s to backport Pull Request %d"
       [Str (repoOwner prInfo); Str (repoName prInfo); Int (num prInfo)]) ;;
  (* Checkout the new branch *)
  _ <- cmdOrReturn (execCmd "/tmp/vitess" "git" ["checkout"; newBranch])
    (fun err => fail err
       "Failed to checkout repository %s/%s to branch %s to backport Pull Request %d"
       [Str (repoOwner prInfo); Str (repoName prInfo); Str newBranch;
        Int (num prInfo)]) ;;
  (* Cherry-pick the commit *)
  out <- call (execCmd "/tmp/vitess" "git"
    ["cherry-pick"; "-m"; "1"; mergedCommitSHA]) ;;
  conflict <-
    match snd out with
    | Some err =>
        if Contains err "conflicts" then
          _ <- cmdOrReturn (execCmd "/tmp/vitess" "git" ["add"; "."])
            (fun err => fail err
               "Failed to do 'git add' on branch %s to backport Pull Request %d"
               [Str newBranch; Int (num prInfo)]) ;;
          _ <- cmdOrReturn (execCmd "/tmp/vitess" "git"
              ["commit"; botAuthor; "-m";
               Sprintf "Cherry-pick %s with conflicts" [Str mergedCommitSHA]])
            (fun err => fail err
               "Failed to do 'git commit' on branch %s to backport Pull Request %d"
               [Str newBranch; Int (num prInfo)]) ;;
          ret true
        else
          return_ (fail err
            "Failed to cherry-pick %s to branch %s to backport Pull Request %d"
            [Str mergedCommitSHA; Str newBranch; Int (num prInfo)])
    | None =>
        _ <- cmdOrReturn (execCmd "/tmp/vitess" "git"
            ["commit"; "--amend"; botAuthor; "--no-edit"])
          (fun err => fail err
             "Failed to do 'git commit --amend' on branch %s to backport Pull Request %d"
             [Str newBranch; Int (num prInfo)]) ;;
        ret false
    end ;;
  (* Push the changes *)
  _ <- cmdOrReturn (execCmd "/tmp/vitess" "git" ["push"; "origin"; newBranch])
    (fun err => fail err
       "Failed to push %s to backport Pull Request %s"
       [Str newBranch; Int (num prInfo)]) ;;
  (* Create a Pull Request for the new branch *)
  let newPR :=
    {| NewTitle := Some (Sprintf "[%s] %s (#%d)"
                     [Str branch; Str (GetTitle pr); Int (GetNumber pr)]);
       Head := Some newBranch;
       Base := Some branch;
       Body := Some (Sprintf descriptionFormat
                     [Str portType; Int (GetNumber pr)]);
       MaintainerCanModify := Some true;
       Draft := Some conflict |} in
  newPRCreated <- orReturn
    (PullRequests_Create (repoOwner prInfo) (repoName prInfo) newPR)
    (fun err => fail err "" []) ;;
  let labelsToAdd := labels in
  let labelsToAdd :=
    if (conflict : bool)
    then (labelsToAdd ++ ["Merge Conflict"; "Skip CI"])%list
    else labelsToAdd in
  let labelsToAdd :=
    if String.eqb portType backport then (labelsToAdd ++ ["Backport"])%list
    else if String.eqb portType forwardport
         then (labelsToAdd ++ ["Forwardport"])%list
         else labelsToAdd in
  let newPRNumber := GetNumber newPRCreated in
  _ <- orReturn
    (Issues_AddLabelsToIssue (repoOwner prInfo) (repoName prInfo)
       newPRNumber labelsToAdd)
    (fun err => fail err "Failed to assign labels to Pull Request %d"
                  [Int newPRNumber]) ;;
  let originalPRAuthor := User.GetLogin (GetUser pr) in
  _ <- (if (conflict : bool) then
          let conflictCommentBody :=
            Sprintf conflictCommentFormat
              [Str originalPRAuthor; Str portType;
               Str (repoOwner prInfo); Str (repoName prInfo);
               Int newPRNumber;
               Str (repoOwner prInfo); Str (repoName prInfo);
               Str branch; Str mergedCommitSHA] in
          let prCommentConflict :=
            {| CommentBody := Some conflictCommentBody |} in
          _ <- orReturn
            (Issues_CreateComment (repoOwner prInfo) (repoName prInfo)
               newPRNumber prCommentConflict)
            (fun err => fail err
               "Failed to comment conflict notice on Pull Request %d"
               [Int newPRNumber]) ;;
          ret tt
        else ret tt) ;;
  oldReviewers <- orReturn
    (PullRequests_ListReviewers (repoOwner prInfo) (repoName prInfo)
       (num prInfo))
    (fun err => fail err
       "Failed to get the list of reviewers on Pull Request %d"
       [Int (num prInfo)]) ;;
  let reviewers : list string := [] in
  let reviewers := (reviewers ++ map User.GetLogin (Users oldReviewers))%list in
  let reviewers := (reviewers ++ map Team.GetName (Teams oldReviewers))%list in
  let reviewers := (reviewers ++ [originalPRAuthor])%list in
  _ <- orReturn
    (PullRequests_RequestReviewers (repoOwner prInfo) (repoName prInfo)
       newPRNumber
       {| RequestedReviewers := reviewers; TeamReviewers := [] |})
    (fun err => fail err "" []) ;;
  ret (Returned (newPRNumber, None))).

(** ** backportPR *)

(** The three lists [backportPR] fills from the labels. *)
Record plan : Type := {
  backportBranches : list string;
  forwardportBranches : list string;
  otherLabels : list string
}.

Definition noPlan : plan :=
  {| backportBranches := []; forwardportBranches := []; otherLabels := [] |}.

(** The loop [for _, label := range pr.Labels] of [backportPR], from the
    lists filled so far. [None] is the run-time panic of an index out of
    range in [strings.Split(...)[1]]. *)
Fixpoint scanLabels (labels : list (option Label.t)) (acc : plan) : option plan :=
  match labels with
  | [] => Some acc
  | None :: rest => scanLabels rest acc
  | Some label :: rest =>
      let name := Label.GetName (Some label) in
      if HasPrefix name backportLabelPrefix then
        match nth_error (Split name backportLabelPrefix) 1 with
        | None => None
        | Some b =>
            scanLabels rest
              {| backportBranches := backportBranches acc ++ [b];
                 forwardportBranches := forwardportBranches acc;
                 otherLabels := otherLabels acc |}
        end
      else if HasPrefix name forwardportLabelPrefix then
        match nth_error (Split name forwardportLabelPrefix) 1 with
        | None => None
        | Some b =>
            scanLabels rest
              {| backportBranches := backportBranches acc;
                 forwardportBranches := forwardportBranches acc ++ [b];
                 otherLabels := otherLabels acc |}
        end
      else
        scanLabels rest
          {| backportBranches := backportBranches acc;
             forwardportBranches := forwardportBranches acc;
             otherLabels := otherLabels acc ++ [name] |}
  end.

(** The loops [for _, branch := range ...Branches]: one [portPR] per branch,
    its error logged, then the next branch. A panic ends the loop. *)
Fixpoint portEach (client : Client) (prInfo : prInformation) (pr : PullRequest)
    (mergedCommitSHA portType : string) (labels : list string)
    (branches : list string) : Prog (outcome unit) :=
  match branches with
  | [] => Ret (Returned tt)
  | branch :: rest =>
      bind (portPR client prInfo pr mergedCommitSHA branch portType labels)
        (fun r =>
           match r with
           | Panicked => Ret Panicked
           | Returned (_, Some err) =>
               bind (trigger (Log (Some err) err)) (fun _ =>
                 portEach client prInfo pr mergedCommitSHA portType labels rest)
           | Returned (_, None) =>
               portEach client prInfo pr mergedCommitSHA portType labels rest
           end)
  end.

Definition backportPR (event : PullRequestEvent) (prInfo : prInformation)
  : Prog (outcome (option error)) :=
  let installationID := GetInstallationIDFromEvent event in
  bind (trigger (NewInstallationClient installationID)) (fun r =>
  match r with
  | Err err => Ret (Returned (Some err))
  | Ok client =>
  bind (trigger (PullRequests_Get (repoOwner prInfo) (repoName prInfo)
                   (num prInfo))) (fun r =>
  match r with
  | Err err =>
      bind (trigger (Log (Some err)
              (Sprintf "Failed to get Pull Request %s/%s#%d"
                 [Str (repoOwner prInfo); Str (repoName prInfo);
                  Int (num prInfo)])))
        (fun _ => Ret (Returned None))
  | Ok pr =>
      match scanLabels (Labels pr) noPlan with
      | None => Ret Panicked
      | Some p =>
          let mergedCommitSHA := GetMergeCommitSHA pr in
          bind (portEach client prInfo pr mergedCommitSHA backport
                  (otherLabels p) (backportBranches p)) (fun o =>
          match o with
          | Panicked => Ret Panicked
          | Returned _ =>
          bind (portEach client prInfo pr mergedCommitSHA forwardport
                  (otherLabels p) (forwardportBranches p)) (fun o =>
          match o with
          | Panicked => Ret Panicked
          | Returned _ => Ret (Returned None)
          end)
          end)
      end
  end)
  end).

(** ** Running a program against the outside *)

(** The outside: any state, and an answer to every call from it. *)
Record World : Type := {
  State : Type;
  handle : forall X : Type, Event X -> State -> X * State
}.
Arguments handle _ {X} _ _.

(** A call made, with the answer it got. *)
Inductive Call : Type :=
| called {X : Type} (e : Event X) (x : X).

Fixpoint run (W : World) {R : Type} (p : Prog R) (s : State W)
  : R * list Call * State W :=
  match p with
  | Ret r => (r, [], s)
  | Vis e k =>
      let (x, s') := handle W e s in
      let '(r, t, s'') := run W (k x) s' in
      (r, called e x :: t, s'')
  end.

Definition returned {R S : Type} (o : R * list Call * S) : R := fst (fst o).
Definition trace {R S : Type} (o : R * list Call * S) : list Call := snd (fst o).

(** *** What a trace shows *)

(** The git commands run, each with the error it ended in. *)
Definition commandOf (c : Call) : list (list string * option error) :=
  match c with
  | @called X e x =>
      match e in Event X return X -> list (list string * option error) with
      | execCmd _ _ args => fun x => [(args, snd x)]
      | _ => fun _ => []
      end x
  end.
Definition commands (t : list Call) : list (list string * option error) :=
  flat_map commandOf t.

(** The branch refs looked up. *)
Definition refLookups (t : list Call) : list string :=
  flat_map (fun c =>
    match c with
    | called (Git_GetRef _ _ ref) _ => [ref]
    | _ => []
    end) t.

(** The refs created. *)
Definition refsCreated (t : list Call) : list Reference :=
  flat_map (fun c =>
    match c with
    | called (Git_CreateRef _ _ ref) _ => [ref]
    | _ => []
    end) t.

(** The pull requests asked for. *)
Definition pullsCreated (t : list Call) : list NewPullRequest :=
  flat_map (fun c =>
    match c with
    | called (PullRequests_Create _ _ pull) _ => [pull]
    | _ => []
    end) t.

(** The pull requests opened: those asked for that the forge granted. *)
Definition pullOpenedOf (c : Call) : list (NewPullRequest * PullRequest) :=
  match c with
  | @called X e x =>
      match e in Event X return X -> list (NewPullRequest * PullRequest) with
      | PullRequests_Create _ _ pull =>
          fun x => match x with Ok pr => [(pull, pr)] | Err _ => [] end
      | _ => fun _ => []
      end x
  end.
Definition pullsOpened (t : list Call) : list (NewPullRequest * PullRequest) :=
  flat_map pullOpenedOf t.

(** The label lists applied, with the pull request they went to. *)
Definition labelsApplied (t : list Call) : list (Z * list string) :=
  flat_map (fun c =>
    match c with
    | called (Issues_AddLabelsToIssue _ _ n ls) _ => [(n, ls)]
    | _ => []
    end) t.

(** The label lists applied that the forge accepted. *)
Definition labelsAcceptedOf (c : Call) : list (Z * list string) :=
  match c with
  | @called X e x =>
      match e in Event X return X -> list (Z * list string) with
      | Issues_AddLabelsToIssue _ _ n ls =>
          fun x => match x with Ok _ => [(n, ls)] | Err _ => [] end
      | _ => fun _ => []
      end x
  end.
Definition labelsAccepted (t : list Call) : list (Z * list string) :=
  flat_map labelsAcceptedOf t.

(** The comments posted, with the pull request they went to. *)
Definition commentsPosted (t : list Call) : list (Z * IssueComment) :=
  flat_map (fun c =>
    match c with
    | called (Issues_CreateComment _ _ n cm) _ => [(n, cm)]
    | _ => []
    end) t.

(** The reviewer requests made, with the pull request they went to. *)
Definition reviewersRequested (t : list Call) : list (Z * ReviewersRequest) :=
  flat_map (fun c =>
    match c with
    | called (PullRequests_RequestReviewers _ _ n rq) _ => [(n, rq)]
    | _ => []
    end) t.

(** The reviewer lists read, as the forge answered them. *)
Definition reviewersListedOf (c : Call) : list (Z * result Reviewers) :=
  match c with
  | @called X e x =>
      match e in Event X return X -> list (Z * result Reviewers) with
      | PullRequests_ListReviewers _ _ n => fun x => [(n, x)]
      | _ => fun _ => []
      end x
  end.
Definition reviewersListed (t : list Call) : list (Z * result Reviewers) :=
  flat_map reviewersListedOf t.

(** The errors logged. *)
Definition logged (t : list Call) : list string :=
  flat_map (fun c =>
    match c with
    | called (Log _ msg) _ => [msg]
    | _ => []
    end) t.

(** *** Scripted worlds

    A world without state that answers every call from a fixed table; the
    concrete runs below use them. *)

Record Script : Type := {
  pullRequest : result PullRequest;
  missingRef : string -> bool;
  cmdError : list string -> option error;
  created : result PullRequest;
  labelsError : option error;
  commentError : option error;
  listed : result Reviewers;
  requestError : option error
}.

Definition orOk {A : Type} (err : option error) (a : A) : result A :=
  match err with Some e => Err e | None => Ok a end.

Definition emptyPR : PullRequest :=
  {| Number := None; Title := None; PRUser := None; Labels := [];
     MergeCommitSHA := None |}.

Definition answer (sc : Script) {X : Type} (e : Event X) : X :=
  match e in Event X return X with
  | NewInstallationClient id => Ok {| installation := id |}
  | PullRequests_Get _ _ _ => pullRequest sc
  | Git_GetRef _ _ ref =>
      if missingRef sc ref then Err "404 Not Found"
      else Ok {| Ref := Some ("refs/" ++ ref)%string;
                 Object := Some {| SHA := Some "c0ffee" |} |}
  | Git_CreateRef _ _ ref => Ok ref
  | execCmd _ _ args => (EmptyString, cmdError sc args)
  | PullRequests_Create _ _ _ => created sc
  | Issues_AddLabelsToIssue _ _ _ _ => orOk (labelsError sc) []
  | Issues_CreateComment _ _ _ cm => orOk (commentError sc) cm
  | PullRequests_ListReviewers _ _ _ => listed sc
  | PullRequests_RequestReviewers _ _ _ _ => orOk (requestError sc) emptyPR
  | Log _ _ => tt
  end.

Definition scripted (sc : Script) : World :=
  {| State := unit; handle := fun X e s => (answer sc e, s) |}.

Definition label (name : string) : option Label.t :=
  Some {| Label.Name := Some name |}.
Definition user (login : string) : option User.t :=
  Some {| User.Login := Some login |}.
Definition team (name : string) : option Team.t :=
  Some {| Team.Name := Some name |}.

(** Pull request 100 of the examples, by [alice], merged as [abc123]. *)
Definition pr100 (labels : list (option Label.t)) : PullRequest :=
  {| Number := Some 100%Z; Title := Some "Fix the planner";
     PRUser := user "alice"; Labels := labels;
     MergeCommitSHA := Some "abc123" |}.

Definition info100 : prInformation :=
  {| num := 100%Z; repoOwner := "vitessio"; repoName := "vitess";
     merged := true |}.

Definition pr101 : PullRequest :=
  {| Number := Some 101%Z; Title := None; PRUser := None; Labels := [];
     MergeCommitSHA := None |}.

Definition bobAndCore : Reviewers :=
  {| Users := [user "bob"]; Teams := [team "core"] |}.

(** Every call succeeds and the cherry-pick is clean. *)
Definition cleanScript (labels : list (option Label.t)) : Script :=
  {| pullRequest := Ok (pr100 labels);
     missingRef := fun _ => false;
     cmdError := fun _ => None;
     created := Ok pr101;
     labelsError := None; commentError := None;
     listed := Ok bobAndCore; requestError := None |}.

Definition isCherryPick (args : list string) : bool :=
  match args with
  | cmd :: _ => String.eqb cmd "cherry-pick"
  | [] => false
  end.

(** Every call succeeds but the cherry-pick, which conflicts. *)
Definition conflictScript (labels : list (option Label.t)) : Script :=
  {| pullRequest := Ok (pr100 labels);
     missingRef := fun _ => false;
     cmdError := fun args =>
       if isCherryPick args
       then Some "error: could not apply abc123... after resolving the conflicts, mark them"
       else None;
     created := Ok pr101;
     labelsError := None; commentError := None;
     listed := Ok bobAndCore; requestError := None |}.

(** The clean world, with one of the four steps after the pull request is
    opened failing. *)
Definition lateFailureScript (labelsErr listErr requestErr : option error)
  : Script :=
  {| pullRequest := Ok (pr100 []);
     missingRef := fun _ => false;
     cmdError := fun _ => None;
     created := Ok pr101;
     labelsError := labelsErr; commentError := None;
     listed := match listErr with Some e => Err e | None => Ok bobAndCore end;
     requestError := requestErr |}.

(** The clean world without the branch [release-99]. *)
Definition missingBranchScript (labels : list (option Label.t)) : Script :=
  {| pullRequest := Ok (pr100 labels);
     missingRef := fun ref => String.eqb ref "heads/release-99";
     cmdError := fun _ => None;
     created := Ok pr101;
     labelsError := None; commentError := None;
     listed := Ok bobAndCore; requestError := None |}.

(** The clean world in which [git clone] fails with [msg]. *)
Definition cloneFailureScript (msg : error) : Script :=
  {| pullRequest := Ok (pr100 []);
     missingRef := fun _ => false;
     cmdError := fun args =>
       match args with
       | cmd :: _ => if String.eqb cmd "clone" then Some msg else None
       | [] => None
       end;
     created := Ok pr101;
     labelsError := None; commentError := None;
     listed := Ok bobAndCore; requestError := None |}.

Definition client0 : Client := {| installation := 0 |}.

(** A scripted world whose lookups answer a ref without its object. *)
Definition bareRefs (sc : Script) : World :=
  {| State := unit;
     handle := fun X (e : Event X) s =>
       (match e in Event X return X -> X with
        | Git_GetRef _ _ ref =>
            fun _ => Ok {| Ref := Some ref; Object := None |}
        | _ => fun x => x
        end (answer sc e), s) |}.

(** *** Reading a trace of [portPR] *)

(** A cherry-pick that ended in an error the source takes for a conflict. *)
Definition isConflict (c : list string * option error) : bool :=
  match c with
  | (cmd :: _, Some err) =>
      String.eqb cmd "cherry-pick" && Contains err "conflicts"
  | _ => false
  end.

(** The value of the local [conflict] once the cherry-pick has run. *)
Definition hadConflict (t : list Call) : bool :=
  existsb isConflict (commands t).

(** The error of a failed step among the four that follow the creation of
    the pull request. *)
Definition lateFailure (c : Call) : option error :=
  match c with
  | @called X e x =>
      match e in Event X return X -> option error with
      | Issues_AddLabelsToIssue _ _ _ _ =>
          fun x => match x with Err err => Some err | Ok _ => None end
      | Issues_CreateComment _ _ _ _ =>
          fun x => match x with Err err => Some err | Ok _ => None end
      | PullRequests_ListReviewers _ _ _ =>
          fun x => match x with Err err => Some err | Ok _ => None end
      | PullRequests_RequestReviewers _ _ _ _ =>
          fun x => match x with Err err => Some err | Ok _ => None end
      | _ => fun _ => None
      end x
  end.

(** The kind label [portPR] adds last. *)
Definition kindLabel (portType : string) : list string :=
  if String.eqb portType backport then ["Backport"]
  else if String.eqb portType forwardport then ["Forwardport"]
  else [].

(** The name of the working branch, as the specification writes it. *)
Definition workingBranch (portKind : string) (prNumber : Z)
    (targetBranch : string) : string :=
  (portKind ++ "-" ++ itoa prNumber ++ "-to-" ++ targetBranch)%string.


Definition cherryPick (sha : string) : list string :=
  ["cherry-pick"; "-m"; "1"; sha].

Definition clone (prInfo : prInformation) : list string :=
  ["clone";
   ("git@github.com:" ++ repoOwner prInfo ++ "/" ++ repoName prInfo
    ++ ".git")%string;
   "/tmp/vitess"].

Definition isSome {A : Type} (o : option A) : bool :=
  match o with Some _ => true | None => false end.

(** The forge answers the lookup of a ref with the object the ref points
    at, as its API does. *)
Definition answersObjects (W : World) : Prop :=
  forall owner repo ref s v s',
    handle W (Git_GetRef owner repo ref) s = (Ok v, s') -> Object v <> None.

(** *** The runs of the examples *)

Definition event7 : PullRequestEvent := {| InstallationID := 7 |}.

Definition conflictError : error :=
  "error: could not apply abc123... after resolving the conflicts, mark them".

(** One port of pull request 100 to [release-18], in a scripted world. *)
Definition port18 (sc : Script) (labels : list string)
  : outcome portResult * list Call * unit :=
  run (scripted sc)
    (portPR client0 info100 (pr100 []) "abc123" "release-18" backport labels)
    tt.

(** The labels of the examples: a branch that is missing, a nil entry, a
    label to carry over, and two branches that are there. *)
Definition labels100 : list (option Label.t) :=
  [label "Backport to: release-99"; label "Needs doc"; None;
   label "Backport to: release-19"; label "Forwardport to: main"].

Definition plan100 : plan :=
  {| backportBranches := ["release-99"; "release-19"];
     forwardportBranches := ["main"];
     otherLabels := ["Needs doc"] |}.

(** The merge of pull request 100 in a scripted world. *)
Definition merge100 (sc : Script)
  : outcome (option error) * list Call * unit :=
  run (scripted sc) (backportPR event7 info100) tt.

Definition failedRequest : Call :=
  called
    (PullRequests_RequestReviewers "vitessio" "vitess" 101
       {| RequestedReviewers := ["bob"; "core"; "alice"];
          TeamReviewers := [] |})
    (Err "422 Unprocessable").

Definition missing99 : Script := missingBranchScript labels100.

Definition cloneExists : error :=
  "fatal: destination path '/tmp/vitess' already exists and is not an empty directory.".

(** [wp W p Q s]: the run of [p] from [s] ends in a result, a trace and a
    state that satisfy [Q]. *)
Definition wp (W : World) {R : Type} (p : Prog R)
    (Q : R -> list Call -> State W -> Prop) (s : State W) : Prop :=
  let '(r, t, s') := run W p s in Q r t s'.

(** ** Reasoning about runs *)

Section Runs.
Variable W : World.

Lemma wp_run {R} (p : Prog R) (Q : R -> list Call -> State W -> Prop) s :
  wp W p Q s ->
  forall r t s', run W p s = (r, t, s') -> Q r t s'.
Proof. unfold wp. intros H r t s' E. rewrite E in H. exact H. Qed.

Lemma wp_Ret {R} (r : R) (Q : R -> list Call -> State W -> Prop) s :
  Q r [] s -> wp W (Ret r) Q s.
Proof. intro H. exact H. Qed.

Lemma wp_Vis {R X} (e : Event X) (k : X -> Prog R)
    (Q : R -> list Call -> State W -> Prop) s :
  (forall x s', handle W e s = (x, s') ->
     wp W (k x) (fun r t => Q r (called e x :: t)) s') ->
  wp W (Vis e k) Q s.
Proof.
  unfold wp. simpl. intros H.
  destruct (handle W e s) as [x s1] eqn:E.
  specialize (H x s1 eq_refl).
  destruct (run W (k x) s1) as [[r t] s2]. exact H.
Qed.

Lemma wp_bind {A B} (p : Prog A) (f : A -> Prog B)
    (Q : B -> list Call -> State W -> Prop) s :
  wp W p (fun a t1 s1 => wp W (f a) (fun b t2 => Q b (t1 ++ t2)) s1) s ->
  wp W (bind p f) Q s.
Proof.
  revert Q s. induction p as [a | X e k IH]; intros Q s H.
  - exact H.
  - simpl. apply wp_Vis. intros x s1 E. apply IH.
    unfold wp in H. simpl in H. rewrite E in H.
    unfold wp. destruct (run W (k x) s1) as [[a t1] s2]. exact H.
Qed.

Lemma run_bind {A B} (p : Prog A) (f : A -> Prog B) s :
  run W (bind p f) s =
  let '(a, t1, s1) := run W p s in
  let '(b, t2, s2) := run W (f a) s1 in
  (b, t1 ++ t2, s2).
Proof.
  revert s. induction p as [a | X e k IH]; intro s; simpl.
  - destruct (run W (f a) s) as [[b t2] s2]. reflexivity.
  - destruct (handle W e s) as [x s1]. rewrite IH.
    destruct (run W (k x) s1) as [[a t1] s2].
    destruct (run W (f a) s2) as [[b t2] s3]. reflexivity.
Qed.

Lemma wp_func {R} (b : Stmt R R) (Q : R -> list Call -> State W -> Prop) s :
  wp W b (fun x t s' => Q (match x with inl r => r | inr r => r end) t s') s ->
  wp W (func b) Q s.
Proof.
  intro H. unfold func. apply wp_bind.
  unfold wp in *. destruct (run W b s) as [[x t] s1].
  destruct x; simpl; rewrite app_nil_r; exact H.
Qed.

Lemma wp_seq {R A B} (p : Stmt R A) (f : A -> Stmt R B)
    (Q : R + B -> list Call -> State W -> Prop) s :
  wp W p (fun x t1 s1 =>
            match x with
            | inl r => Q (inl r) t1 s1
            | inr a => wp W (f a) (fun y t2 => Q y (t1 ++ t2)) s1
            end) s ->
  wp W (seq p f) Q s.
Proof.
  intro H. unfold seq. apply wp_bind.
  unfold wp in *. destruct (run W p s) as [[x t] s1].
  destruct x; simpl; [rewrite app_nil_r|]; exact H.
Qed.

Lemma wp_call {R X} (e : Event X)
    (Q : R + X -> list Call -> State W -> Prop) s :
  (forall x s', handle W e s = (x, s') -> Q (inr x) [called e x] s') ->
  wp W (call e) Q s.
Proof. intro H. apply wp_Vis. intros x s1 E. apply H, E. Qed.

Lemma wp_orReturn {R A} (e : Event (result A)) (onErr : error -> R)
    (Q : R + A -> list Call -> State W -> Prop) s :
  (forall x s', handle W e s = (x, s') ->
     match x with
     | Err err => Q (inl (onErr err)) [called e x] s'
     | Ok v => Q (inr v) [called e x] s'
     end) ->
  wp W (orReturn e onErr) Q s.
Proof.
  intro H. apply wp_Vis. intros x s1 E. specialize (H x s1 E).
  destruct x; exact H.
Qed.

Lemma wp_cmdOrReturn {R} (e : Event (string * option error))
    (onErr : error -> R) (Q : R + unit -> list Call -> State W -> Prop) s :
  (forall x s', handle W e s = (x, s') ->
     match snd x with
     | Some err => Q (inl (onErr err)) [called e x] s'
     | None => Q (inr tt) [called e x] s'
     end) ->
  wp W (cmdOrReturn e onErr) Q s.
Proof.
  intro H. apply wp_Vis. intros x s1 E. specialize (H x s1 E).
  destruct (snd x); exact H.
Qed.

Lemma wp_ret {R A} (a : A) (Q : R + A -> list Call -> State W -> Prop) s :
  Q (inr a) [] s -> wp W (ret a) Q s.
Proof. intro H. exact H. Qed.

Lemma wp_return {R A} (r : R) (Q : R + A -> list Call -> State W -> Prop) s :
  Q (inl r) [] s -> wp W (@return_ R A r) Q s.
Proof. intro H. exact H. Qed.

End Runs.

(** ** Facts about the string functions *)

Section Strings.

Lemma append_empty (s : string) : (s ++ "")%string = s.
Proof. induction s as [|c s IH]; simpl; [|rewrite IH]; reflexivity. Qed.

Lemma append_assoc (a b c : string) :
  ((a ++ b) ++ c)%string = (a ++ (b ++ c))%string.
Proof. induction a as [|x a IH]; simpl; [|rewrite IH]; reflexivity. Qed.

Lemma prefix_append (p t : string) : String.prefix p (p ++ t) = true.
Proof.
  induction p as [|c p IH]; simpl.
  - destruct t; reflexivity.
  - destruct (ascii_dec c c) as [_|N]; [exact IH | contradiction].
Qed.

Lemma prefix_split (p s : string) :
  String.prefix p s = true -> exists t, s = (p ++ t)%string.
Proof.
  revert s. induction p as [|c p IH]; intros s H.
  - exists s. reflexivity.
  - destruct s as [|d s]; simpl in H; [discriminate|].
    destruct (ascii_dec c d) as [->|_]; [|discriminate].
    destruct (IH s H) as [t ->]. exists t. reflexivity.
Qed.

(** Matching a prefix is exact: the label starts with every byte of it. *)
Lemma HasPrefix_iff (s p : string) :
  HasPrefix s p = true <-> exists t, s = (p ++ t)%string.
Proof.
  unfold HasPrefix. split.
  - apply prefix_split.
  - intros [t ->]. apply prefix_append.
Qed.

Lemma Contains_prefix (s sub : string) :
  String.prefix sub s = true -> Contains s sub = true.
Proof. intro H. destruct s; cbn [Contains]; rewrite H; reflexivity. Qed.

Lemma Contains_here (sub rest : string) :
  Contains (sub ++ rest) sub = true.
Proof. apply Contains_prefix, prefix_append. Qed.

Lemma Contains_String (c : ascii) (s sub : string) :
  Contains s sub = true -> Contains (String c s) sub = true.
Proof. intro H. simpl. rewrite H. apply orb_true_r. Qed.

Lemma Contains_append (a s sub : string) :
  Contains s sub = true -> Contains (a ++ s) sub = true.
Proof.
  intro H. induction a as [|c a IH]; [exact H|].
  apply (Contains_String c), IH.
Qed.

Lemma splitFrom_not_nil (sep : string) (skip : nat) (cur s : string) :
  exists x rest, splitFrom sep skip cur s = x :: rest.
Proof.
  revert skip cur. induction s as [|c s IH]; intros skip cur;
    cbn [splitFrom].
  - eauto.
  - destruct skip as [|k]; [|apply IH].
    destruct (String.prefix sep (String c s)); [eauto | apply IH].
Qed.

Lemma splitFrom_skip (sep q cur t : string) :
  splitFrom sep (String.length q) cur (q ++ t) = splitFrom sep 0 cur t.
Proof.
  induction q as [|c q IH]; simpl.
  - destruct t; reflexivity.
  - exact IH.
Qed.

Lemma splitFrom_no_sep (sep cur t : string) :
  Contains t sep = false -> splitFrom sep 0 cur t = [(cur ++ t)%string].
Proof.
  revert cur. induction t as [|c t IH]; intros cur H.
  - simpl. rewrite append_empty. reflexivity.
  - cbn [Contains] in H. apply orb_false_iff in H. destruct H as [H1 H2].
    cbn [splitFrom]. rewrite H1, (IH _ H2), append_assoc. reflexivity.
Qed.

(** The element [1] of the split exists whenever the separator is a
    prefix: the indexing in [backportPR] never panics. *)
Lemma Split_second (s p : string) :
  p <> EmptyString -> HasPrefix s p = true ->
  exists b, nth_error (Split s p) 1 = Some b.
Proof.
  intros Hp H. unfold HasPrefix in H. unfold Split.
  destruct p as [|c p]; [contradiction|].
  destruct s as [|d s]; [discriminate H|].
  cbn [splitFrom]. rewrite H.
  destruct (splitFrom_not_nil (String c p) (String.length (String c p) - 1)
              EmptyString s) as (x & rest & ->).
  exists x. reflexivity.
Qed.

(** When the separator occurs once, at the front, element [1] is the
    suffix. *)
Lemma Split_prefix_once (p t : string) :
  p <> EmptyString -> Contains t p = false ->
  nth_error (Split (p ++ t) p) 1 = Some t.
Proof.
  intros Hp H. unfold Split.
  destruct p as [|c p]; [contradiction|].
  change (String c p ++ t)%string with (String c (p ++ t)).
  cbn [splitFrom].
  change (String c (p ++ t)) with (String c p ++ t)%string.
  rewrite prefix_append.
  replace (String.length (String c p) - 1) with (String.length p)
    by (simpl; lia).
  rewrite splitFrom_skip, (splitFrom_no_sep _ _ _ H). reflexivity.
Qed.

(** The working-branch name as [portPR] prints it. *)
Lemma Sprintf_workingBranch (portKind : string) (n : Z) (target : string) :
  Sprintf "%s-%d-to-%s" [Str portKind; Int n; Str target]
  = workingBranch portKind n target.
Proof.
  unfold workingBranch. cbn -[itoa]. rewrite append_empty. reflexivity.
Qed.

Lemma Sprintf_heads (branch : string) :
  Sprintf "heads/%s" [Str branch] = ("heads/" ++ branch)%string.
Proof. cbn. rewrite append_empty. reflexivity. Qed.

End Strings.

(** ** The labels of the merged pull request *)

Section Planning.

Lemma backport_prefix_not_empty : backportLabelPrefix <> EmptyString.
Proof. discriminate. Qed.

Lemma forwardport_prefix_not_empty : forwardportLabelPrefix <> EmptyString.
Proof. discriminate. Qed.

Lemma scanLabels_total (labels : list (option Label.t)) (acc : plan) :
  exists p, scanLabels labels acc = Some p.
Proof.
  revert acc. induction labels as [|[l|] rest IH]; intro acc;
    cbn [scanLabels].
  - eauto.
  - destruct (HasPrefix (Label.GetName (Some l)) backportLabelPrefix) eqn:B.
    + destruct (Split_second _ _ backport_prefix_not_empty B) as [b ->].
      apply IH.
    + destruct (HasPrefix (Label.GetName (Some l)) forwardportLabelPrefix)
        eqn:F.
      * destruct (Split_second _ _ forwardport_prefix_not_empty F)
          as [b ->].
        apply IH.
      * apply IH.
  - apply IH.
Qed.

Lemma scanLabels_skips_nil (labels : list (option Label.t)) (acc : plan) :
  scanLabels labels acc = scanLabels (filter isSome labels) acc.
Proof.
  revert acc. induction labels as [|[l|] rest IH]; intro acc;
    cbn [scanLabels filter isSome].
  - reflexivity.
  - destruct (HasPrefix (Label.GetName (Some l)) backportLabelPrefix).
    + destruct (nth_error _ 1); [apply IH | reflexivity].
    + destruct (HasPrefix (Label.GetName (Some l)) forwardportLabelPrefix).
      * destruct (nth_error _ 1); [apply IH | reflexivity].
      * apply IH.
  - apply IH.
Qed.

(** A label made of the backport prefix and a suffix in which the prefix
    does not occur again gives its suffix to the backport branches. *)
Lemma scanLabels_backport_label (suffix : string)
    (rest : list (option Label.t)) (acc : plan) :
  Contains suffix backportLabelPrefix = false ->
  scanLabels (label (backportLabelPrefix ++ suffix) :: rest) acc
  = scanLabels rest
      {| backportBranches := backportBranches acc ++ [suffix];
         forwardportBranches := forwardportBranches acc;
         otherLabels := otherLabels acc |}.
Proof.
  intro H. unfold label. cbn [scanLabels Label.GetName].
  replace (HasPrefix (backportLabelPrefix ++ suffix) backportLabelPrefix)
    with true by (symmetry; apply HasPrefix_iff; eauto).
  rewrite (Split_prefix_once _ _ backport_prefix_not_empty H). reflexivity.
Qed.

(** The same for the forward-port prefix. *)
Lemma scanLabels_forwardport_label (suffix : string)
    (rest : list (option Label.t)) (acc : plan) :
  Contains suffix forwardportLabelPrefix = false ->
  scanLabels (label (forwardportLabelPrefix ++ suffix) :: rest) acc
  = scanLabels rest
      {| backportBranches := backportBranches acc;
         forwardportBranches := forwardportBranches acc ++ [suffix];
         otherLabels := otherLabels acc |}.
Proof.
  intro H. unfold label. cbn [scanLabels Label.GetName].
  replace (HasPrefix (forwardportLabelPrefix ++ suffix) backportLabelPrefix)
    with false by reflexivity.
  replace (HasPrefix (forwardportLabelPrefix ++ suffix)
             forwardportLabelPrefix)
    with true by (symmetry; apply HasPrefix_iff; eauto).
  rewrite (Split_prefix_once _ _ forwardport_prefix_not_empty H).
  reflexivity.
Qed.

(** A label that starts with neither prefix is carried over, whole. *)
Lemma scanLabels_other_label (name : string)
    (rest : list (option Label.t)) (acc : plan) :
  HasPrefix name backportLabelPrefix = false ->
  HasPrefix name forwardportLabelPrefix = false ->
  scanLabels (label name :: rest) acc
  = scanLabels rest
      {| backportBranches := backportBranches acc;
         forwardportBranches := forwardportBranches acc;
         otherLabels := otherLabels acc ++ [name] |}.
Proof.
  intros B F. unfold label. cbn [scanLabels Label.GetName].
  rewrite B, F. reflexivity.
Qed.

(** C1: a label that starts with "Backport to: " is meant to give its
    suffix to the backport branches. On the label
    "Backport to: a Backport to: b" the source gives "a " and not the
    suffix "a Backport to: b": [strings.Split(...)[1]] stops at the next
    occurrence of the prefix. The label that only resembles the prefix
    ("Backports to: x") is carried over, as claimed. *)
Theorem scanLabels_cuts_suffix_at_prefix :
  scanLabels
    [label (backportLabelPrefix ++ "a Backport to: b");
     label "Backports to: x"] noPlan
  = Some {| backportBranches := ["a "];
            forwardportBranches := [];
            otherLabels := ["Backports to: x"] |}.
Proof. reflexivity. Qed.

(** C10: the loop over the labels passes over every nil entry and never
    fails: the three lists it fills are those of the label list with the
    nil entries taken out, whatever had been filled before. *)
Theorem scanLabels_nil_entries (labels : list (option Label.t)) (acc : plan) :
  (forall rest, scanLabels (None :: rest) acc = scanLabels rest acc) /\
  (exists p, scanLabels labels acc = Some p /\
             scanLabels (filter isSome labels) acc = Some p).
Proof.
  split; [reflexivity|].
  destruct (scanLabels_total labels acc) as [p H].
  exists p. split; [exact H|]. rewrite <- scanLabels_skips_nil. exact H.
Qed.

End Planning.

(** ** Proof steps for runs of [portPR] *)

Ltac wp_step :=
  lazymatch goal with
  | |- wp _ (func _) _ _ => apply wp_func
  | |- wp _ (seq _ _) _ _ => apply wp_seq
  | |- wp _ (orReturn _ _) _ _ =>
      apply wp_orReturn; intros [?v|?err] ?s ?E
  | |- wp _ (cmdOrReturn _ _) _ _ =>
      apply wp_cmdOrReturn; intros [?out [?err|]] ?s ?E; cbn [snd]
  | |- wp _ (call _) _ _ => apply wp_call; intros ?x ?s ?E
  | |- wp _ (ret _) _ _ => apply wp_ret
  | |- wp _ (return_ _) _ _ => apply wp_return
  | |- wp _ (deref _ _) _ _ => unfold deref
  | |- wp _ (match snd ?x with _ => _ end) _ _ =>
      destruct x as [?out [?err|]]; cbn [snd]
  | |- wp _ (match ?x with _ => _ end) _ _ => destruct x eqn:?
  end; cbv beta iota.

Ltac by_wp :=
  match goal with
  | |- forall r t s', run ?W ?p ?s = (r, t, s') -> @?Q r t s' =>
      apply (wp_run W p Q s)
  end.

(** Every path of [portPR], each with the calls made along it. *)
Ltac run_portPR :=
  by_wp; unfold portPR; cbv zeta;
  rewrite ?Sprintf_workingBranch, ?Sprintf_heads;
  repeat wp_step; cbn [app].

Ltac read_trace :=
  cbn [commands commandOf refLookups refsCreated pullsCreated pullsOpened
       pullOpenedOf labelsApplied labelsAccepted labelsAcceptedOf
       commentsPosted reviewersRequested
       reviewersListed reviewersListedOf logged flat_map app fst snd] in *.

Ltac cases_In H :=
  cbn [In] in H;
  repeat match type of H with
         | _ \/ _ => destruct H as [H|H]
         end;
  try contradiction; try discriminate H.

Ltac find_In := cbn [In]; repeat (first [left; reflexivity | right]).

Ltac find_Contains :=
  repeat first [ apply Contains_here
               | apply Contains_String
               | apply Contains_append ].

(** ** portPR, one port *)

Section PortPR.
Variable W : World.
Variables (client : Client) (prInfo : prInformation) (pr : PullRequest).
Variables (sha branch portType : string) (labels : list string).

Lemma labelsToAdd_eq (conflict : bool) :
  (if String.eqb portType backport
   then ((if conflict then labels ++ ["Merge Conflict"; "Skip CI"]
          else labels) ++ ["Backport"])%list
   else if String.eqb portType forwardport
        then ((if conflict then labels ++ ["Merge Conflict"; "Skip CI"]
               else labels) ++ ["Forwardport"])%list
        else if conflict then (labels ++ ["Merge Conflict"; "Skip CI"])%list
             else labels)
  = (labels ++ (if conflict then ["Merge Conflict"; "Skip CI"] else [])
       ++ kindLabel portType)%list.
Proof.
  unfold kindLabel.
  destruct (String.eqb portType backport);
    [|destruct (String.eqb portType forwardport)];
    destruct conflict; cbn [app];
    rewrite ?app_nil_r, <- ?app_assoc; reflexivity.
Qed.

(** C2: when the cherry-pick ends in a conflict, the flag is set. The
    tree is staged with [git add .] and, once staged, committed; the only
    commit made is the one with the bot as author and the message
    "Cherry-pick {sha} with conflicts"; once committed, the branch is
    pushed. Once pushed, one pull request is asked for, and it is a draft.
    Once it is opened, the labels applied to it are the carried ones, then
    "Merge Conflict" and "Skip CI", then the kind label. Once the labels
    are accepted, exactly one comment is posted on the new pull request,
    and its body contains the merge commit's SHA and the new number; no
    comment is posted before. A port that succeeds has done all of it,
    and returns the number of the pull request it opened. *)
Theorem portPR_conflict (s : State W) (err : error) :
  forall r t s',
  run W (portPR client prInfo pr sha branch portType labels) s = (r, t, s') ->
  In (cherryPick sha, Some err) (commands t) ->
  Contains err "conflicts" = true ->
  let name := workingBranch portType (GetNumber pr) branch in
  let commit :=
    ["commit"; botAuthor; "-m";
     ("Cherry-pick " ++ sha ++ " with conflicts")%string] in
  let conflictLabels :=
    (labels ++ ["Merge Conflict"; "Skip CI"] ++ kindLabel portType)%list in
  hadConflict t = true /\
  ((exists e, In (["add"; "."], e) (commands t)) /\
   (In (["add"; "."], None) (commands t) ->
    exists e, In (commit, e) (commands t)) /\
   (forall args e, In (args, e) (commands t) -> hd "" args = "commit" ->
      args = commit) /\
   (In (commit, None) (commands t) ->
    exists e, In (["push"; "origin"; name], e) (commands t))) /\
  ((In (["push"; "origin"; name], None) (commands t) ->
    exists pull, pullsCreated t = [pull]) /\
   (forall pull, In pull (pullsCreated t) -> Draft pull = Some true)) /\
  ((forall pull created, In (pull, created) (pullsOpened t) ->
      labelsApplied t = [(GetNumber created, conflictLabels)]) /\
   In "Merge Conflict" conflictLabels /\ In "Skip CI" conflictLabels) /\
  ((forall n ls, In (n, ls) (labelsAccepted t) ->
      exists body,
        commentsPosted t = [(n, {| CommentBody := Some body |})] /\
        Contains body sha = true /\
        Contains body (itoa n) = true) /\
   (labelsAccepted t = [] -> commentsPosted t = [])) /\
  (forall n, r = Returned (n, None) ->
   exists pull created,
     In (commit, None) (commands t) /\
     pullsOpened t = [(pull, created)] /\
     n = GetNumber created /\
     labelsAccepted t = [(n, conflictLabels)]).
Proof.
  run_portPR.
  all: read_trace; unfold cherryPick; intros HIn HC; cases_In HIn.
  all: injection HIn as ->.
  all: try match goal with
           | H : Contains _ "conflicts" = false |- _ =>
               rewrite HC in H; discriminate H
           end.
  all: split;
    [ (* the flag *)
      unfold hadConflict; read_trace; apply existsb_exists;
      exists (["cherry-pick"; "-m"; "1"; sha], Some err);
      split; [find_In | cbn; exact HC]
    | split;
      [ (* the commit *)
        split; [eexists; find_In|]; split; [|split];
        [ intros H; cases_In H; eexists; find_In
        | intros args e H Hd; cases_In H; injection H as <- <-;
          cbn [hd] in Hd; first [discriminate Hd | reflexivity]
        | intros H; cases_In H; eexists; find_In ]
      | split;
        [ (* the draft *)
          split;
          [ intros H; cases_In H; eexists; reflexivity
          | intros pull H; cases_In H; subst pull; reflexivity ]
        | split;
          [ (* the labels *)
            split;
            [ intros pull created H; cases_In H; injection H as <- <-;
              rewrite (labelsToAdd_eq true); reflexivity
            | rewrite !in_app_iff; cbn [In]; split; tauto ]
          | split;
            [ (* the comment *)
              split;
              [ intros n ls H; cases_In H; injection H as <- <-;
                eexists;
                (split; [reflexivity|split]);
                cbn -[Contains itoa]; find_Contains
              | intros H; first [discriminate H | reflexivity] ]
            | (* the successful port *)
              unfold fail; intros n H; try discriminate H;
              injection H as <-;
              eexists; eexists;
              (split; [find_In|split; [reflexivity|split; [reflexivity|]]]);
              rewrite (labelsToAdd_eq true); reflexivity ] ] ] ] ].
Qed.

(** C3, as the source has it: the draft flag of a pull request asked for
    is the conflict flag, in every run. After a clean cherry-pick the flag
    is false, the pull request is no draft, no comment is posted, and the
    labels applied are the carried ones followed by the kind label:
    nothing is added to them, and "Merge Conflict" or "Skip CI" is among
    them only when it was carried over. *)
Theorem portPR_clean (s : State W) :
  forall r t s',
  run W (portPR client prInfo pr sha branch portType labels) s = (r, t, s') ->
  (forall pull, In pull (pullsCreated t) ->
     Draft pull = Some (hadConflict t)) /\
  (In (cherryPick sha, None) (commands t) ->
   hadConflict t = false /\
   (forall pull, In pull (pullsCreated t) -> Draft pull = Some false) /\
   (forall n ls, In (n, ls) (labelsApplied t) ->
      ls = (labels ++ kindLabel portType)%list /\
      (forall l, In l ls -> In l labels \/ In l (kindLabel portType))) /\
   commentsPosted t = []).
Proof.
  run_portPR.
  all: unfold hadConflict; read_trace; unfold cherryPick.
  all: cbn -[Contains];
    repeat match goal with
           | H : Contains _ "conflicts" = _ |- _ => rewrite H
           end; cbn [orb].
  all: split; [intros pull H; cases_In H; subst pull; reflexivity|].
  all: intros HIn; cases_In HIn.
  all: split; [reflexivity|].
  all: split; [intros pull H; cases_In H; subst pull; reflexivity|].
  all: split; [|reflexivity].
  all: intros n ls H; cases_In H; injection H as <- <-.
  all: rewrite (labelsToAdd_eq false); cbn [app]; split; [reflexivity|].
  all: intros l Hl; apply in_app_iff in Hl; exact Hl.
Qed.

(** C4, as the source has it: once the pull request is opened, a failure
    of the label, comment, reviewer-list or reviewer-request step ends
    [portPR] there: the failing call is its last, it returns 0 and the
    step's error under a message, and not the new number. Nothing is
    undone: the pull request stays opened. *)
Theorem portPR_late_failure (s : State W) :
  forall r t s',
  run W (portPR client prInfo pr sha branch portType labels) s = (r, t, s') ->
  forall c e, In c t -> lateFailure c = Some e ->
  (exists pull created, pullsOpened t = [(pull, created)]) /\
  (exists msg, r = Returned (0%Z, Some (msg ++ ": " ++ e)%string)) /\
  t = (removelast t ++ [c])%list.
Proof.
  run_portPR.
  all: intros c e HIn HL; cases_In HIn; subst c; cbn [lateFailure] in HL;
    try discriminate HL; injection HL as ->.
  all: read_trace.
  all: split; [eexists; eexists; reflexivity|].
  all: split; [unfold fail, Wrapf; eexists; reflexivity|].
  all: reflexivity.
Qed.

(** C5: after a successful port the reviewers of the original pull
    request were read once, and one request was made on the new pull
    request; the names requested are the logins of the individual
    reviewers, the names of the team reviewers and the login of the
    author, none left out and nothing else. (All of them are asked for as
    individual reviewers: the request names no team reviewers.) *)
Theorem portPR_reviewers (s : State W) :
  forall r t s',
  run W (portPR client prInfo pr sha branch portType labels) s = (r, t, s') ->
  forall n, r = Returned (n, None) ->
  exists old rq,
    reviewersListed t = [(num prInfo, Ok old)] /\
    reviewersRequested t = [(n, rq)] /\
    TeamReviewers rq = [] /\
    forall x, In x (RequestedReviewers rq) <->
      In x (map User.GetLogin (Users old)) \/
      In x (map Team.GetName (Teams old)) \/
      x = User.GetLogin (GetUser pr).
Proof.
  run_portPR.
  all: unfold fail; intros n H; try discriminate H; injection H as <-.
  all: read_trace; eexists; eexists.
  all: split; [reflexivity|]; split; [reflexivity|]; split; [reflexivity|].
  all: cbn [RequestedReviewers app]; intros x; rewrite !in_app_iff;
    cbn [In]; intuition.
Qed.

(** C9: a [git clone] that fails with "already exists and is not an empty
    directory" in its message is followed by [git fetch origin]; with any
    other message the clone is the last command run, and [portPR] returns
    0 and the error, without asking for a pull request. *)
Theorem portPR_clone_failure (s : State W) (err : error) :
  forall r t s',
  run W (portPR client prInfo pr sha branch portType labels) s = (r, t, s') ->
  In (clone prInfo, Some err) (commands t) ->
  (Contains err "already exists and is not an empty directory" = true ->
   exists e rest,
     commands t =
     (clone prInfo, Some err) :: (["fetch"; "origin"], e) :: rest) /\
  (Contains err "already exists and is not an empty directory" = false ->
   commands t = [(clone prInfo, Some err)] /\
   pullsCreated t = [] /\
   r = fail err "Failed to clone repository %s/%s to backport Pull Request %d"
         [Str (repoOwner prInfo); Str (repoName prInfo); Int (num prInfo)]).
Proof.
  run_portPR.
  all: read_trace; unfold clone; intros HIn; cases_In HIn.
  all: apply (f_equal snd) in HIn; cbn [snd] in HIn; injection HIn as ->.
  all: split; intros HC;
    try match goal with
        | H : negb (Contains _ _) = _ |- _ =>
            rewrite HC in H; cbn [negb] in H; discriminate H
        end.
  all: first [ eexists; eexists; reflexivity
             | split; [reflexivity|split; reflexivity] ].
Qed.

(** What every run of [portPR] shows, whatever the answers: one lookup, of
    the target branch; nothing logged; the working branch under its name
    wherever it is used. *)
Lemma portPR_shape (s : State W) :
  forall r t s',
  run W (portPR client prInfo pr sha branch portType labels) s = (r, t, s') ->
  refLookups t = [("heads/" ++ branch)%string] /\
  logged t = [] /\
  (forall ref, In ref (refsCreated t) ->
     Ref ref = Some ("refs/heads/"
                     ++ workingBranch portType (GetNumber pr) branch)%string) /\
  (forall pull, In pull (pullsCreated t) ->
     Head pull = Some (workingBranch portType (GetNumber pr) branch) /\
     Base pull = Some branch) /\
  (forall args e, In (args, e) (commands t) ->
     hd "" args = "checkout" \/ hd "" args = "push" ->
     last args "" = workingBranch portType (GetNumber pr) branch).
Proof.
  run_portPR.
  all: read_trace.
  all: split; [reflexivity|]; split; [reflexivity|].
  all: split; [intros ref H; cases_In H; subst ref; reflexivity|].
  all: split; [intros pull H; cases_In H; subst pull; split; reflexivity|].
  all: intros args e H Hd; cases_In H; injection H as <- <-;
    cbn [hd] in Hd; destruct Hd as [Hd|Hd]; try discriminate Hd;
    reflexivity.
Qed.

(** C8: when the lookup of the target branch fails, [portPR] returns 0
    and the error, and the lookup is the only call it made: no ref is
    created and no git command is run. In the loop over the branches the
    error is logged, and the loop goes on with the branches that are
    left. *)
Theorem portPR_missing_branch (s s1 : State W) (e : error)
    (rest : list string) :
  let lookup :=
    Git_GetRef (repoOwner prInfo) (repoName prInfo) ("heads/" ++ branch) in
  handle W lookup s = (Err e, s1) ->
  run W (portPR client prInfo pr sha branch portType labels) s
  = (Returned (0%Z, Some (": " ++ e)%string), [called lookup (Err e)], s1) /\
  run W (portEach client prInfo pr sha portType labels (branch :: rest)) s
  = (let log := Log (Some (": " ++ e)%string) (": " ++ e)%string in
     let '(x, s2) := handle W log s1 in
     let '(u, t, s3) :=
       run W (portEach client prInfo pr sha portType labels rest) s2 in
     (u, called lookup (Err e) :: called log x :: t, s3)).
Proof.
  intros lookup H.
  assert (P : run W (portPR client prInfo pr sha branch portType labels) s
              = (Returned (0%Z, Some (": " ++ e)%string),
                 [called lookup (Err e)], s1)).
  { destruct (run W (portPR client prInfo pr sha branch portType labels) s)
      as [[r t] s'] eqn:R.
    revert r t s' R. run_portPR.
    all: subst lookup; try congruence.
    rewrite H in E. injection E as <- <-. reflexivity. }
  split; [exact P|].
  cbn [portEach]. rewrite run_bind, P. unfold trigger.
  simpl. destruct (handle W _ s1) as [x s2].
  destruct (run W _ s2) as [[u t] s3]. reflexivity.
Qed.

(** The only panic of [portPR] is the dereference of the object of the
    target branch's ref: a world that answers every lookup with the
    object never makes it panic. *)
Lemma portPR_returns (s : State W) :
  answersObjects W ->
  forall r t s',
  run W (portPR client prInfo pr sha branch portType labels) s = (r, t, s') ->
  exists x, r = Returned x.
Proof.
  intros HW. run_portPR.
  all: unfold fail; eauto.
  all: match goal with
       | E : handle W (Git_GetRef _ _ _) _ = (Ok ?v, _),
         N : Object ?v = None |- _ =>
           exfalso; exact (HW _ _ _ _ _ _ E N)
       end.
Qed.

End PortPR.

(** ** backportPR, every branch *)

Section Orchestrator.
Variable W : World.
Variables (client : Client) (prInfo : prInformation) (pr : PullRequest).
Variables (sha portType : string) (labels : list string).

Lemma refLookups_app (t1 t2 : list Call) :
  refLookups (t1 ++ t2) = (refLookups t1 ++ refLookups t2)%list.
Proof. apply flat_map_app. Qed.

Lemma refsCreated_app (t1 t2 : list Call) :
  refsCreated (t1 ++ t2) = (refsCreated t1 ++ refsCreated t2)%list.
Proof. apply flat_map_app. Qed.

Lemma pullsCreated_app (t1 t2 : list Call) :
  pullsCreated (t1 ++ t2) = (pullsCreated t1 ++ pullsCreated t2)%list.
Proof. apply flat_map_app. Qed.

(** One turn of the loop: the port, its error logged if it has one, and
    in both cases the rest of the branches. *)
Lemma run_portEach_cons (branch : string) (rest : list string) (s : State W) :
  run W (portEach client prInfo pr sha portType labels (branch :: rest)) s
  = (let '(r1, t1, s1) :=
       run W (portPR client prInfo pr sha branch portType labels) s in
     match r1 with
     | Panicked => (Panicked, t1, s1)
     | Returned (_, Some err) =>
         let '(x, s2) := handle W (Log (Some err) err) s1 in
         let '(u, t2, s3) :=
           run W (portEach client prInfo pr sha portType labels rest) s2 in
         (u, t1 ++ called (Log (Some err) err) x :: t2, s3)
     | Returned (_, None) =>
         let '(u, t2, s3) :=
           run W (portEach client prInfo pr sha portType labels rest) s1 in
         (u, t1 ++ t2, s3)
     end)%list.
Proof.
  cbn [portEach]. rewrite run_bind.
  destruct (run W (portPR _ _ _ _ _ _ _) s) as [[r1 t1] s1].
  destruct r1 as [[n [err|]]|]; [|reflexivity|].
  - unfold trigger. simpl.
    destruct (handle W (Log (Some err) err) s1) as [x s2].
    destruct (run W _ s2) as [[u t2] s3]. reflexivity.
  - simpl. rewrite app_nil_r. reflexivity.
Qed.

(** A turn of the loop adds the calls of one port to those of the rest. *)
Lemma portEach_cons_trace (branch : string) (rest : list string)
    (s : State W) r t s' :
  run W (portEach client prInfo pr sha portType labels (branch :: rest)) s
  = (r, t, s') ->
  exists r1 t1 s1,
    run W (portPR client prInfo pr sha branch portType labels) s
    = (r1, t1, s1) /\
    ((r1 = Panicked /\ r = Panicked /\ t = t1) \/
     (r1 <> Panicked /\
      exists s2 t2,
        run W (portEach client prInfo pr sha portType labels rest) s2
        = (r, t2, s') /\
        refLookups t = (refLookups t1 ++ refLookups t2)%list /\
        refsCreated t = (refsCreated t1 ++ refsCreated t2)%list /\
        pullsCreated t = (pullsCreated t1 ++ pullsCreated t2)%list)).
Proof.
  intro H. rewrite run_portEach_cons in H.
  destruct (run W (portPR _ _ _ _ _ _ _) s) as [[r1 t1] s1].
  exists r1, t1, s1. split; [reflexivity|].
  destruct r1 as [[n [err|]]|].
  - right. split; [discriminate|].
    destruct (handle W (Log (Some err) err) s1) as [x s2].
    destruct (run W _ s2) as [[u t2] s3] eqn:R.
    injection H as <- <- <-. exists s2, t2.
    rewrite refLookups_app, refsCreated_app, pullsCreated_app.
    repeat split; reflexivity || exact R.
  - right. split; [discriminate|].
    destruct (run W _ s1) as [[u t2] s3] eqn:R.
    injection H as <- <- <-. exists s1, t2.
    rewrite refLookups_app, refsCreated_app, pullsCreated_app.
    repeat split; reflexivity || exact R.
  - left. injection H as <- <- <-. repeat split.
Qed.


(** The loop looks up every branch, in order, whatever fails. *)
Lemma portEach_lookups (branches : list string) :
  answersObjects W ->
  forall s r t s',
  run W (portEach client prInfo pr sha portType labels branches) s
  = (r, t, s') ->
  r = Returned tt /\
  refLookups t = map (fun b => ("heads/" ++ b)%string) branches.
Proof.
  intro HW. induction branches as [|b rest IH]; intros s r t s' H.
  - injection H as <- <- <-. split; reflexivity.
  - apply portEach_cons_trace in H.
    destruct H as (r1 & t1 & s1 & P & H).
    destruct (portPR_returns _ _ _ _ _ _ _ _ _ HW _ _ _ P) as [x ->].
    apply portPR_shape in P. destruct P as (L1 & _).
    destruct H as [(N & _) | (_ & s2 & t2 & R & E1 & _)]; [discriminate N|].
    apply IH in R. destruct R as (-> & L2).
    rewrite E1, L1, L2. split; reflexivity.
Qed.

End Orchestrator.

Section BackportPR.
Variable W : World.
Variables (event : PullRequestEvent) (prInfo : prInformation).
Variables (s s1 s2 : State W) (client : Client) (pr : PullRequest) (p : plan).

Let newClient : Event (result Client) :=
  NewInstallationClient (GetInstallationIDFromEvent event).
Let get : Event (result PullRequest) :=
  PullRequests_Get (repoOwner prInfo) (repoName prInfo) (num prInfo).

Hypothesis client_created : handle W newClient s = (Ok client, s1).
Hypothesis pull_read : handle W get s1 = (Ok pr, s2).
Hypothesis planned : scanLabels (Labels pr) noPlan = Some p.

(** The run of [backportPR] once the client and the pull request are
    there: the backports, then the forward-ports. *)
Lemma run_backportPR :
  run W (backportPR event prInfo) s
  = (let '(o1, t1, s3) :=
       run W (portEach client prInfo pr (GetMergeCommitSHA pr) backport
                (otherLabels p) (backportBranches p)) s2 in
     match o1 with
     | Panicked =>
         (Panicked,
          called newClient (Ok client) :: called get (Ok pr) :: t1, s3)
     | Returned _ =>
         let '(o2, t2, s4) :=
           run W (portEach client prInfo pr (GetMergeCommitSHA pr)
                    forwardport (otherLabels p) (forwardportBranches p)) s3 in
         (match o2 with
          | Panicked => Panicked
          | Returned _ => Returned None
          end,
          called newClient (Ok client) :: called get (Ok pr) :: t1 ++ t2,
          s4)
     end)%list.
Proof.
  unfold backportPR, trigger.
  cbn [bind]. cbn [run]. fold newClient. rewrite client_created.
  cbn [bind]. cbn [run]. fold get. rewrite pull_read. rewrite planned.
  rewrite run_bind.
  destruct (run W (portEach _ _ _ _ backport _ _) s2) as [[o1 t1] s3].
  destruct o1 as [u1|]; [|cbn [run]; rewrite app_nil_r; reflexivity].
  rewrite run_bind.
  destruct (run W (portEach _ _ _ _ forwardport _ _) s3) as [[o2 t2] s4].
  destruct o2; cbn [run]; rewrite app_nil_r; reflexivity.
Qed.


(** C7: [backportPR] looks up, and so starts a port for, every branch of
    the backport list and then every branch of the forward-port list, once
    each and in order, whatever any of the ports answers or fails with;
    and it returns no error. (The forge is taken to answer a lookup with
    the ref's object; a ref without one makes [portPR] panic.) *)
Theorem backportPR_ports_every_branch :
  answersObjects W ->
  forall r t s',
  run W (backportPR event prInfo) s = (r, t, s') ->
  r = Returned None /\
  refLookups t =
  map (fun b => ("heads/" ++ b)%string)
    (backportBranches p ++ forwardportBranches p).
Proof.
  intros HW r t s' H. rewrite run_backportPR in H.
  destruct (run W (portEach _ _ _ _ backport _ _) s2) as [[o1 t1] s3] eqn:R1.
  apply (portEach_lookups _ _ _ _ _ _ _ _ HW) in R1. destruct R1 as (-> & L1).
  destruct (run W (portEach _ _ _ _ forwardport _ _) s3)
    as [[o2 t2] s4] eqn:R2.
  apply (portEach_lookups _ _ _ _ _ _ _ _ HW) in R2. destruct R2 as (-> & L2).
  injection H as <- <- _. split; [reflexivity|]. unfold newClient, get.
  cbn [refLookups flat_map app]. fold (refLookups (t1 ++ t2)).
  rewrite refLookups_app, L1, L2, map_app. reflexivity.
Qed.

End BackportPR.

(** ** The theorems at concrete runs *)

Lemma scripted_answersObjects (sc : Script) : answersObjects (scripted sc).
Proof.
  intros owner repo ref s v s' H. cbn in H.
  destruct (missingRef sc ref); [discriminate H|].
  injection H as <- _. discriminate.
Qed.

Lemma portPR_conflict_witness :
  let t := trace (port18 (conflictScript []) ["Needs doc"]) in
  In (cherryPick "abc123", Some conflictError) (commands t) /\
  Contains conflictError "conflicts" = true /\
  hadConflict t = true /\
  (forall pull, In pull (pullsCreated t) -> Draft pull = Some true) /\
  (forall n ls, In (n, ls) (labelsAccepted t) ->
     exists body,
       commentsPosted t = [(n, {| CommentBody := Some body |})] /\
       Contains body "abc123" = true /\
       Contains body (itoa n) = true).
Proof.
  intro t.
  assert (H1 : In (cherryPick "abc123", Some conflictError) (commands t))
    by (vm_compute; find_In).
  assert (H2 : Contains conflictError "conflicts" = true) by reflexivity.
  pose proof (portPR_conflict (scripted (conflictScript [])) client0 info100
                (pr100 []) "abc123" "release-18" backport ["Needs doc"] tt
                conflictError _ _ _ eq_refl H1 H2) as H.
  cbv zeta in H. destruct H as (F & _ & (_ & D) & _ & (C & _) & _).
  split; [exact H1|]. split; [exact H2|]. split; [exact F|].
  split; [exact D | exact C].
Defined.

(** A clean port of a pull request that carried "Skip CI": the label is
    applied to the new pull request. *)
Lemma clean_port_applies_carried_Skip_CI :
  let t := trace (merge100 (cleanScript
                    [label "Backport to: release-18"; label "Skip CI"])) in
  In (cherryPick "abc123", None) (commands t) /\
  hadConflict t = false /\
  labelsApplied t = [(101%Z, ["Skip CI"; "Backport"])] /\
  ~ (forall n ls, In (n, ls) (labelsApplied t) -> ~ In "Skip CI" ls).
Proof.
  intro t.
  assert (L : labelsApplied t = [(101%Z, ["Skip CI"; "Backport"])])
    by reflexivity.
  split; [vm_compute; find_In|]. split; [reflexivity|]. split; [exact L|].
  intro H. apply (H 101%Z ["Skip CI"; "Backport"]).
  - rewrite L. left. reflexivity.
  - left. reflexivity.
Qed.

Lemma portPR_clean_witness :
  let t := trace (port18 (cleanScript []) ["Skip CI"]) in
  In (cherryPick "abc123", None) (commands t) /\
  hadConflict t = false /\
  (forall pull, In pull (pullsCreated t) -> Draft pull = Some false) /\
  (forall n ls, In (n, ls) (labelsApplied t) ->
     ls = ["Skip CI"] ++ kindLabel backport /\
     (forall l, In l ls -> In l ["Skip CI"] \/ In l (kindLabel backport))) /\
  commentsPosted t = [].
Proof.
  intro t.
  assert (H1 : In (cherryPick "abc123", None) (commands t))
    by (vm_compute; find_In).
  split; [exact H1|].
  exact (proj2 (portPR_clean (scripted (cleanScript [])) client0 info100
                  (pr100 []) "abc123" "release-18" backport ["Skip CI"] tt
                  _ _ _ eq_refl) H1).
Defined.

(** The pull request is opened and the labels cannot be applied: [portPR]
    returns 0 and an error, not the number 101 of the new pull request. *)
Lemma label_failure_fails_the_port :
  let o := port18 (lateFailureScript (Some "boom") None None) [] in
  (exists pull, pullsOpened (trace o) = [(pull, pr101)]) /\
  (exists c, In c (trace o) /\ lateFailure c = Some "boom") /\
  returned o
  = Returned (0%Z, Some "Failed to assign labels to Pull Request 101: boom") /\
  returned o <> Returned (101%Z, None).
Proof.
  intro o. split; [eexists; reflexivity|].
  split.
  - exists (called (Issues_AddLabelsToIssue "vitessio" "vitess" 101
                      ["Backport"]) (Err "boom")).
    split; [vm_compute; find_In | reflexivity].
  - split; [reflexivity | discriminate].
Qed.

Lemma portPR_late_failure_witness :
  let o := port18 (lateFailureScript None None (Some "422 Unprocessable")) [] in
  In failedRequest (trace o) /\
  lateFailure failedRequest = Some "422 Unprocessable" /\
  (exists pull created, pullsOpened (trace o) = [(pull, created)]) /\
  (exists msg,
     returned o = Returned (0%Z, Some (msg ++ ": " ++ "422 Unprocessable")%string)) /\
  trace o = removelast (trace o) ++ [failedRequest].
Proof.
  intro o.
  assert (H1 : In failedRequest (trace o)) by (vm_compute; find_In).
  assert (H2 : lateFailure failedRequest = Some "422 Unprocessable")
    by reflexivity.
  split; [exact H1|]. split; [exact H2|].
  exact (portPR_late_failure
           (scripted (lateFailureScript None None (Some "422 Unprocessable")))
           client0 info100 (pr100 []) "abc123" "release-18" backport [] tt
           _ _ _ eq_refl failedRequest _ H1 H2).
Defined.

Lemma portPR_reviewers_witness :
  let t := trace (port18 (cleanScript []) []) in
  exists old rq,
    reviewersListed t = [(100%Z, Ok old)] /\
    reviewersRequested t = [(101%Z, rq)] /\
    TeamReviewers rq = [] /\
    forall x, In x (RequestedReviewers rq) <->
      In x (map User.GetLogin (Users old)) \/
      In x (map Team.GetName (Teams old)) \/
      x = "alice".
Proof.
  exact (portPR_reviewers (scripted (cleanScript [])) client0 info100
           (pr100 []) "abc123" "release-18" backport [] tt
           _ _ _ eq_refl 101%Z eq_refl).
Defined.


Lemma backportPR_ports_every_branch_witness :
  let o := merge100 missing99 in
  returned o = Returned None /\
  refLookups (trace o)
  = map (fun b => ("heads/" ++ b)%string) (["release-99"; "release-19"] ++ ["main"]).
Proof.
  exact (backportPR_ports_every_branch (scripted missing99) event7 info100
           tt tt tt {| installation := 7 |} (pr100 labels100) plan100
           eq_refl eq_refl eq_refl (scripted_answersObjects missing99)
           _ _ _ eq_refl).
Defined.

Lemma portPR_missing_branch_witness :
  let W := scripted missing99 in
  let lookup := Git_GetRef "vitessio" "vitess" "heads/release-99" in
  run W (portPR client0 info100 (pr100 labels100) "abc123" "release-99"
           backport ["Needs doc"]) tt
  = (Returned (0%Z, Some ": 404 Not Found"),
     [called lookup (Err "404 Not Found")], tt) /\
  run W (portEach client0 info100 (pr100 labels100) "abc123" backport
           ["Needs doc"] ["release-99"; "release-19"]) tt
  = (let log := Log (Some ": 404 Not Found") ": 404 Not Found" in
     let '(x, s2) := handle W log tt in
     let '(u, t, s3) :=
       run W (portEach client0 info100 (pr100 labels100) "abc123" backport
                ["Needs doc"] ["release-19"]) s2 in
     (u, called lookup (Err "404 Not Found") :: called log x :: t, s3)).
Proof.
  exact (portPR_missing_branch (scripted missing99) client0 info100
           (pr100 labels100) "abc123" "release-99" backport ["Needs doc"]
           tt tt "404 Not Found" ["release-19"] eq_refl).
Defined.

Lemma portPR_clone_failure_witness :
  let o := port18 (cloneFailureScript cloneExists) [] in
  In (clone info100, Some cloneExists) (commands (trace o)) /\
  Contains cloneExists "already exists and is not an empty directory" = true /\
  exists e rest,
    commands (trace o)
    = (clone info100, Some cloneExists) :: (["fetch"; "origin"], e) :: rest.
Proof.
  intro o.
  assert (H1 : In (clone info100, Some cloneExists) (commands (trace o)))
    by (vm_compute; find_In).
  assert (H2 : Contains cloneExists
                 "already exists and is not an empty directory" = true)
    by reflexivity.
  split; [exact H1|]. split; [exact H2|].
  exact (proj1 (portPR_clone_failure (scripted (cloneFailureScript cloneExists))
                  client0 info100 (pr100 []) "abc123" "release-18" backport []
                  tt cloneExists _ _ _ eq_refl H1) H2).
Defined.

(** ** Examples *)

Example Split_commas : Split "a,b,c" "," = ["a"; "b"; "c"].
Proof. reflexivity. Qed.

Example Split_leftmost : Split "aaa" "aa" = [""; "a"].
Proof. reflexivity. Qed.

Example Split_nothing : Split "" "," = [""].
Proof. reflexivity. Qed.

Example Split_label :
  Split "Backport to: release-18" backportLabelPrefix = [""; "release-18"].
Proof. reflexivity. Qed.

Example Sprintf_wrong_verb :
  Sprintf "Failed to push %s to backport Pull Request %s"
    [Str "backport-100-to-release-18"; Int 100]
  = "Failed to push backport-100-to-release-18 to backport Pull Request %!s(int=100)".
Proof. reflexivity. Qed.

Example labels100_planned : scanLabels labels100 noPlan = Some plan100.
Proof. reflexivity. Qed.

(** Pull request 100 with the labels "Backport to: release-18", "Needs doc"
    and "Backport to: release-19": two ports, each with "Needs doc" and
    "Backport". *)
Example two_backports :
  let t := trace (merge100 (cleanScript
                    [label "Backport to: release-18"; label "Needs doc";
                     label "Backport to: release-19"])) in
  map Head (pullsCreated t)
  = [Some "backport-100-to-release-18"; Some "backport-100-to-release-19"] /\
  map snd (labelsApplied t)
  = [["Needs doc"; "Backport"]; ["Needs doc"; "Backport"]].
Proof. split; reflexivity. Qed.

(** A lookup answered without the object ends the whole merge in a panic,
    at the first branch. *)
Example bare_ref_panics :
  let o := run (bareRefs (cleanScript labels100)) (backportPR event7 info100) tt in
  returned o = Panicked /\ refLookups (trace o) = ["heads/release-99"].
Proof. split; reflexivity. Qed.
